(** * Bufer_Overflow: the filter -> validate pipeline of [buffer_overflow.py]

    A shallow embedding of the input-sanitising pipeline
    ([Filter.filter_input], [Validator.validate_input], [process_request])
    together with the parts of the Python runtime it relies on:
    [len], [str.strip], [str.isspace] and [re.fullmatch] on the parsed form
    of [VALID_PATTERN].  Logging is kept as an explicit, append-only list of
    records threaded through [process_request]. *)

From Stdlib Require Import List NArith ZArith Bool Arith Lia String Ascii.
Import ListNotations.

Set Implicit Arguments.

(** ** Python strings *)

(** A Python [str] is a sequence of Unicode code points; [len] counts code
    points.  Code points are kept as [N]: nothing below depends on the upper
    bound 0x10FFFF, so every statement holds for all sequences. *)
Module PyStr.

Definition char := N.
Definition str := list char.

Definition len (s : str) : nat := List.length s.

(** [str.isspace] on one code point, also the class behind [\s] for a
    [str] pattern (CPython's [Py_UNICODE_ISSPACE]). *)
Definition isspace (c : char) : bool :=
  ((0x09 <=? c) && (c <=? 0x0D)
   || (0x1C <=? c) && (c <=? 0x20)
   || (c =? 0x85) || (c =? 0xA0) || (c =? 0x1680)
   || (0x2000 <=? c) && (c <=? 0x200A)
   || (c =? 0x2028) || (c =? 0x2029) || (c =? 0x202F)
   || (c =? 0x205F) || (c =? 0x3000))%N.

(** [str.lstrip()]: the left index moves right while it sees whitespace. *)
Fixpoint lstrip (s : str) : str :=
  match s with
  | [] => []
  | c :: r => if isspace c then lstrip r else s
  end.

(** [str.rstrip()]: the right index moves left while it sees whitespace. *)
Definition rstrip (s : str) : str := rev (lstrip (rev s)).

(** [str.strip()]: the left scan first, then the right scan, which never
    crosses the left index. *)
Definition strip (s : str) : str := rstrip (lstrip s).

(** Literals of the examples: an ASCII literal as its code points. *)
Definition of_string (s : string) : str :=
  List.map N_of_ascii (list_ascii_of_string s).

(** ["A" * n] *)
Definition replicate (n : nat) (c : char) : str := List.repeat c n.

End PyStr.
Import PyStr.

(** ** The regular-expression engine, as far as [VALID_PATTERN] needs it *)

Module Sre.

(** Members of a character set [[...]]. *)
Inductive set_item : Type :=
| RANGE (lo hi : char)
| LITERAL (c : char)
| CATEGORY_SPACE.

(** The parsed pattern is a sequence of operations. *)
Inductive op : Type :=
| AT_BEGINNING                                   (* ^ *)
| AT_END                                         (* $ *)
| IN (items : list set_item)                     (* [...] *)
| MAX_REPEAT (lo : nat) (items : list set_item). (* [...]+ , [...]* : greedy, no upper bound *)

Definition pattern := list op.

Definition item_matches (i : set_item) (c : char) : bool :=
  match i with
  | RANGE lo hi => ((lo <=? c) && (c <=? hi))%N
  | LITERAL x => (c =? x)%N
  | CATEGORY_SPACE => isspace c
  end.

Definition in_set (items : list set_item) (c : char) : bool :=
  existsb (fun i => item_matches i c) items.

(** [$] without MULTILINE: at the end of the string, or just before a
    newline that is the last character. *)
Definition at_end (rest : str) : bool :=
  match rest with
  | [] => true
  | [c] => (c =? 0x0A)%N
  | _ => false
  end.

(** Greedy repetition of a one-character set: take one more character
    when possible, and fall back to the continuation [k] once at least
    [lo] characters were taken. [n] counts the characters taken. *)
Fixpoint repeat_one (items : list set_item) (lo : nat)
         (k : nat -> str -> bool) (n pos : nat) (rest : str) : bool :=
  (match rest with
   | c :: r => in_set items c && repeat_one items lo k (S n) (S pos) r
   | [] => false
   end)
  || ((lo <=? n) && k pos rest).

(** Backtracking match of [ops] at offset [pos], [rest] being the text
    from [pos] on; the match has to end at the end of the text. *)
Fixpoint match_ops (ops : pattern) (pos : nat) (rest : str) {struct ops} : bool :=
  match ops with
  | [] => match rest with [] => true | _ :: _ => false end
  | AT_BEGINNING :: k => (pos =? 0) && match_ops k pos rest
  | AT_END :: k => at_end rest && match_ops k pos rest
  | IN items :: k =>
      match rest with
      | c :: r => in_set items c && match_ops k (S pos) r
      | [] => false
      end
  | MAX_REPEAT lo items :: k => repeat_one items lo (match_ops k) 0 pos rest
  end.

(** [re.fullmatch(pattern, string)], as a truth value. *)
Definition fullmatch (p : pattern) (s : str) : bool := match_ops p 0 s.

End Sre.
Import Sre.

(** ** Configuration *)

Definition MAX_INPUT_LENGTH : nat := 25.

(** The members of the set [[A-Za-z0-9\s\-_]]. *)
Definition ALLOWED : list set_item :=
  [ RANGE 0x41 0x5A; RANGE 0x61 0x7A; RANGE 0x30 0x39;
    CATEGORY_SPACE; LITERAL 0x2D; LITERAL 0x5F ]%N.

(** [VALID_PATTERN = r'^[A-Za-z0-9\s\-_]+$'], parsed. *)
Definition VALID_PATTERN : pattern :=
  [ AT_BEGINNING; MAX_REPEAT 1 ALLOWED; AT_END ].

(** ** Exceptions *)

(** Both stages raise [ValueError]; the two are told apart by their
    message. The first carries the limit it prints. *)
Inductive ValueError : Type :=
| LengthExceeded (limit : nat)
| InvalidCharacters.

Inductive outcome (A : Type) : Type :=
| Return (a : A)
| Raise (e : ValueError).
Arguments Raise {A} e.

(** ** Filtering and validation *)

Module Filter.

Definition filter_input (data : str) : outcome str :=
  if MAX_INPUT_LENGTH <? len data
  then Raise (LengthExceeded MAX_INPUT_LENGTH)
  else Return (strip data).

End Filter.

Module Validator.

Definition validate_input (data : str) : outcome str :=
  if negb (fullmatch VALID_PATTERN data)
  then Raise InvalidCharacters
  else Return data.

End Validator.

(** ** Logging *)

Inductive level : Type := INFO | ERROR.

(** The three messages [process_request] can log. *)
Inductive message : Type :=
| FilterOk (filtered : str)
| ValidationOk
| RequestError (error : ValueError).

Record log_record : Type := { levelname : level; msg : message }.

Definition log := list log_record.

(** A computation that appends to the log and returns a value. *)
Definition Logged (A : Type) : Type := log -> A * log.

Definition ret {A} (a : A) : Logged A := fun l => (a, l).

Definition bind {A B} (m : Logged A) (f : A -> Logged B) : Logged B :=
  fun l => let (a, l') := m l in f a l'.

(** The same for a computation that may raise: the records written before
    the exception stay in the log. *)
Definition Raising (A : Type) : Type := Logged (outcome A).

Definition retE {A} (a : A) : Raising A := ret (Return a).

Definition bindE {A B} (m : Raising A) (f : A -> Raising B) : Raising B :=
  fun l =>
    match m l with
    | (Return a, l') => f a l'
    | (Raise e, l') => (Raise e, l')
    end.

Definition call {A} (o : outcome A) : Raising A := ret o.

Definition emit (lv : level) (m : message) : Logged unit :=
  fun l => (tt, l ++ [{| levelname := lv; msg := m |}]).

Definition logging_info (m : message) : Raising unit :=
  bind (emit INFO m) (fun _ => retE tt).

Definition logging_error (m : message) : Logged unit := emit ERROR m.

(** [try: body  except ValueError as error: handler error] *)
Definition try_except {A} (body : Raising A) (handler : ValueError -> Logged A)
  : Logged A :=
  fun l =>
    match body l with
    | (Return a, l') => (a, l')
    | (Raise e, l') => handler e l'
    end.

Declare Scope logged_scope.
Delimit Scope logged_scope with logged.
Notation "x <- m ;; k" := (bindE m (fun x => k))
  (at level 61, m at next level, right associativity) : logged_scope.
Notation "m ;;; k" := (bindE m (fun _ => k))
  (at level 61, right associativity) : logged_scope.

(** ** The request pipeline *)

Definition process_request (user_input : str) : Logged str :=
  try_except
    (filtered_data <- call (Filter.filter_input user_input) ;;
     logging_info (FilterOk filtered_data) ;;;
     validated_data <- call (Validator.validate_input filtered_data) ;;
     logging_info ValidationOk ;;;
     retE validated_data)%logged
    (fun error =>
       bind (logging_error (RequestError error)) (fun _ => ret [])).

(** The value [process_request] returns, and the records it writes, when
    called with the log [l]. *)
Definition returned (s : str) (l : log) : str := fst (process_request s l).
Definition written (s : str) (l : log) : log := snd (process_request s l).

(** The records of an INFO line and of the ERROR line of the handler. *)
Definition info (m : message) : log_record := {| levelname := INFO; msg := m |}.
Definition error (e : ValueError) : log_record :=
  {| levelname := ERROR; msg := RequestError e |}.

(** The success path writes "validation succeeded"; the [except] branch
    writes one ERROR record. *)
Definition is_validation_ok (r : log_record) : bool :=
  match msg r with ValidationOk => true | _ => false end.

Definition is_error (r : log_record) : bool :=
  match levelname r with ERROR => true | INFO => false end.

(** A request is accepted when the call reaches the end of the [try]
    block, rejected when it goes through the [except] branch. *)
Definition accepted (s : str) : bool := existsb is_validation_ok (written s []).
Definition rejected (s : str) : bool := existsb is_error (written s []).

(** Membership in the character set of [VALID_PATTERN]. *)
Definition allowed (c : char) : bool := in_set ALLOWED c.

(** The allow-list in the words of the specification:
    A-Z, a-z, 0-9, whitespace, hyphen, underscore. *)
Definition allow_list (c : char) : Prop :=
  (0x41 <= c <= 0x5A)%N \/ (0x61 <= c <= 0x7A)%N \/ (0x30 <= c <= 0x39)%N
  \/ isspace c = true \/ c = 0x2D%N \/ c = 0x5F%N.

(** A string that neither starts nor ends with whitespace. *)
Definition starts_clean (s : str) : bool :=
  match s with
  | [] => true
  | c :: _ => negb (isspace c)
  end.

Definition trimmed (s : str) : bool := starts_clean s && starts_clean (rev s).

Definition all_space (s : str) : bool := forallb isspace s.

(** ** The entry point *)

(** What [main] prints after the call of [process_request]. *)
Inductive console_line : Type :=
| SuccessNotice            (* the line announcing processed data *)
| Data (s : str)           (* print(safe_data) *)
| FailureNotice.           (* the line sending the user to the logs *)

(** Truth value of a [str], as in [if safe_data:]. *)
Definition truthy (s : str) : bool :=
  match s with
  | [] => false
  | _ :: _ => true
  end.

(** [main] from the line read by [input] on: [user_input] is that line and
    the log it starts from holds what [setup_logging] and the start-up
    message wrote. The value is the list of lines printed. *)
Definition main (user_input : str) : Logged (list console_line) :=
  bind (process_request user_input) (fun safe_data =>
    if truthy safe_data
    then ret [SuccessNotice; Data safe_data]
    else ret [FailureNotice]).

(** ** The random module, as far as the performance test uses it *)

(** The generator is an unknown sequence of raw draws; every primitive takes
    the next draw and reduces it to its range. Whatever the real generator
    returns is the reduction of some such sequence. *)
Module Random.

Definition state := nat -> N.

Definition Rand (A : Type) : Type := state -> A * state.

Definition retR {A} (a : A) : Rand A := fun st => (a, st).

Definition bindR {A B} (m : Rand A) (f : A -> Rand B) : Rand B :=
  fun st => let (a, st') := m st in f a st'.

Definition next : Rand N := fun st => (st 0, fun i => st (S i)).

(** [_randbelow(n)]: a value below [n], for [n] positive. *)
Definition randbelow (n : N) : Rand N :=
  bindR next (fun r => retR (r mod n)%N).

(** [random()]: the float k / 2^53 with 0 <= k < 2^53, kept as k. *)
Definition random : Rand N := randbelow 0x20000000000000%N.

(** [randint(a, b)] is [a + _randbelow(b - a + 1)]; both calls below have
    [a <= b]. *)
Definition randint (a b : Z) : Rand Z :=
  bindR (randbelow (Z.to_N (b - a + 1))) (fun r => retR (a + Z.of_N r)%Z).

(** [choice(seq)] is [seq[_randbelow(len(seq))]]; the one sequence it is
    called on below is not empty. *)
Definition choice (seq : str) : Rand char :=
  bindR (randbelow (N.of_nat (len seq)))
        (fun i => retR (nth (N.to_nat i) seq 0%N)).

End Random.
Import Random.

Declare Scope rand_scope.
Delimit Scope rand_scope with rand.
Notation "x <- m ;; k" := (bindR m (fun x => k))
  (at level 61, m at next level, right associativity) : rand_scope.

(** ** The performance test *)

Module PerformanceTester.

(** [string.ascii_letters + string.digits + " -_"] *)
Definition letters : str :=
  of_string "abcdefghijklmnopqrstuvwxyzABCDEFGHIJKLMNOPQRSTUVWXYZ0123456789 -_".

(** [''.join(random.choice(letters) for _ in range(n))] *)
Fixpoint join_choices (n : nat) : Rand str :=
  match n with
  | O => retR []
  | S n' =>
      (c <- choice letters ;;
       r <- join_choices n' ;;
       retR (c :: r))%rand
  end.

(** [range(length)] is empty for a negative [length]. *)
Definition generate_random_string (length : Z) : Rand str :=
  join_choices (Z.to_nat length).

(** The float 0.9 is 0x1CCCCCCCCCCCCD / 2^53, so [random() < 0.9] compares
    the numerators. *)
Definition NINE_TENTHS : N := 0x1CCCCCCCCCCCCD%N.

(** One turn of the loop that fills [test_data]. *)
Definition generate_item : Rand str :=
  (r <- random ;;
   if (r <? NINE_TENTHS)%N
   then
     length <- randint 1 (Z.of_nat MAX_INPUT_LENGTH) ;;
     generate_random_string length
   else
     length <- randint 1 (Z.of_nat MAX_INPUT_LENGTH + 10) ;;
     s <- generate_random_string length ;;
     retR (s ++ of_string "!@#"))%rand.

Fixpoint generate_items (n : nat) : Rand (list str) :=
  match n with
  | O => retR []
  | S n' =>
      (item <- generate_item ;;
       rest <- generate_items n' ;;
       retR (item :: rest))%rand
  end.

(** [test_data] after the first loop of [run_performance_test]. *)
Definition generate_test_data (num_requests : Z) : Rand (list str) :=
  generate_items (Z.to_nat num_requests).

(** The second loop of [run_performance_test], from the counters
    [success_count] and [failure_count] on. The records of
    [logging.debug] lie below the INFO level of the root logger and are
    not written. *)
Fixpoint count_requests (test_data : list str) (success_count failure_count : nat)
  : nat * nat :=
  match test_data with
  | [] => (success_count, failure_count)
  | data :: rest =>
      match Filter.filter_input data with
      | Return filtered =>
          match Validator.validate_input filtered with
          | Return _ => count_requests rest (S success_count) failure_count
          | Raise _ => count_requests rest success_count (S failure_count)
          end
      | Raise _ => count_requests rest success_count (S failure_count)
      end
  end.

(** [success_count] and [failure_count] when the second loop of
    [run_performance_test] ends; the timing and the percentages computed
    from them afterwards are floats and are left out. *)
Definition run_performance_test (num_requests : Z) : Rand (nat * nat) :=
  (test_data <- generate_test_data num_requests ;;
   retR (count_requests test_data 0 0))%rand.

End PerformanceTester.
Import PerformanceTester.

(** A character of an identifier: in the allow-list and not whitespace. *)
Definition word_char (c : char) : Prop := allow_list c /\ isspace c = false.

(** ** Concrete runs *)

Example run_hello_world :
  process_request (of_string "   Hello World   ") []
  = (of_string "Hello World",
     [ {| levelname := INFO; msg := FilterOk (of_string "Hello World") |};
       {| levelname := INFO; msg := ValidationOk |} ]).
Proof. reflexivity. Qed.

Example run_too_long :
  process_request (replicate 26 0x41%N) []
  = ([], [ {| levelname := ERROR; msg := RequestError (LengthExceeded 25) |} ]).
Proof. reflexivity. Qed.

Example run_valid_input :
  returned (of_string "Valid_Input 123") [] = of_string "Valid_Input 123".
Proof. reflexivity. Qed.

Example run_invalid_input :
  process_request (of_string "Invalid@Input#!") []
  = ([], [ {| levelname := INFO; msg := FilterOk (of_string "Invalid@Input#!") |};
           {| levelname := ERROR; msg := RequestError InvalidCharacters |} ]).
Proof. reflexivity. Qed.

Example run_trailing_newline :
  returned (of_string "ab") [] = of_string "ab"
  /\ fullmatch VALID_PATTERN [0x61; 0x0A]%N = true
  /\ fullmatch VALID_PATTERN [0x61; 0x40]%N = false.
Proof. repeat split. Qed.

(** ** Facts about [strip] *)

Section StripFacts.

Lemma lstrip_split (s : str) :
  exists l, s = l ++ lstrip s /\ all_space l = true.
Proof.
  induction s as [|c r [l [Hs Hl]]]; simpl.
  - exists []. split; reflexivity.
  - destruct (isspace c) eqn:Hc.
    + exists (c :: l). simpl. rewrite Hc, Hl. split; [congruence | reflexivity].
    + exists []. split; reflexivity.
Qed.

Lemma lstrip_clean (s : str) : starts_clean (lstrip s) = true.
Proof.
  induction s as [|c r IH]; simpl; [reflexivity|].
  destruct (isspace c) eqn:Hc; [exact IH|]. simpl. now rewrite Hc.
Qed.

Lemma lstrip_fix (s : str) : starts_clean s = true -> lstrip s = s.
Proof.
  destruct s as [|c r]; simpl; [reflexivity|].
  now destruct (isspace c).
Qed.

Lemma lstrip_spaces (l s : str) :
  all_space l = true -> lstrip (l ++ s) = lstrip s.
Proof.
  induction l as [|c l IH]; simpl; [reflexivity|].
  intros H. apply andb_true_iff in H as [Hc Hl]. rewrite Hc. auto.
Qed.

Lemma all_space_rev (l : str) : all_space l = true -> all_space (rev l) = true.
Proof.
  unfold all_space. rewrite !forallb_forall. intros H x Hx.
  apply H. now apply in_rev.
Qed.

Lemma rstrip_split (s : str) :
  exists r, s = rstrip s ++ r /\ all_space r = true.
Proof.
  unfold rstrip. destruct (lstrip_split (rev s)) as [l [Hs Hl]].
  exists (rev l). split; [|now apply all_space_rev].
  rewrite <- rev_app_distr, <- Hs. symmetry. apply rev_involutive.
Qed.

Lemma rstrip_clean (s : str) : starts_clean (rev (rstrip s)) = true.
Proof. unfold rstrip. rewrite rev_involutive. apply lstrip_clean. Qed.

Lemma rstrip_fix (s : str) : starts_clean (rev s) = true -> rstrip s = s.
Proof.
  intros H. unfold rstrip. rewrite (lstrip_fix _ H). apply rev_involutive.
Qed.

Lemma rstrip_spaces (s r : str) :
  all_space r = true -> rstrip (s ++ r) = rstrip s.
Proof.
  intros H. unfold rstrip. rewrite rev_app_distr.
  now rewrite lstrip_spaces by now apply all_space_rev.
Qed.

(** The right scan leaves the first character alone. *)
Lemma rstrip_keeps_start (s : str) :
  starts_clean s = true -> starts_clean (rstrip s) = true.
Proof.
  intros H. destruct (rstrip_split s) as [r [Hs _]].
  destruct (rstrip s) as [|c u]; [reflexivity|].
  rewrite Hs in H. exact H.
Qed.

Lemma strip_trimmed (s : str) : trimmed (strip s) = true.
Proof.
  unfold trimmed, strip. apply andb_true_iff. split.
  - apply rstrip_keeps_start, lstrip_clean.
  - apply rstrip_clean.
Qed.

Lemma strip_split (s : str) :
  exists l r, s = l ++ strip s ++ r /\ all_space l = true /\ all_space r = true.
Proof.
  destruct (lstrip_split s) as [l [Hs Hl]].
  destruct (rstrip_split (lstrip s)) as [r [Hm Hr]].
  exists l, r. unfold strip. now rewrite <- Hm.
Qed.

Lemma strip_fix (s : str) : trimmed s = true -> strip s = s.
Proof.
  unfold trimmed, strip. intros H. apply andb_true_iff in H as [H1 H2].
  rewrite (lstrip_fix _ H1). now apply rstrip_fix.
Qed.

Lemma strip_idempotent (s : str) : strip (strip s) = strip s.
Proof. apply strip_fix, strip_trimmed. Qed.

Lemma strip_length (s : str) : len (strip s) <= len s.
Proof.
  destruct (strip_split s) as [l [r [Hs _]]]. unfold len.
  rewrite Hs at 2. rewrite !length_app. lia.
Qed.

Lemma lstrip_all_space (r : str) : all_space r = true -> lstrip r = [].
Proof.
  intros H. rewrite <- (app_nil_r r). now rewrite lstrip_spaces.
Qed.

(** [strip] is determined by the split: whatever is cut off is whitespace
    at the two edges, and the middle is returned as it is. *)
Lemma strip_unique (l m r : str) :
  all_space l = true -> all_space r = true -> trimmed m = true ->
  strip (l ++ m ++ r) = m.
Proof.
  intros Hl Hr Hm. unfold strip. rewrite lstrip_spaces by assumption.
  apply andb_true_iff in Hm as [H1 H2].
  destruct m as [|c m'].
  - simpl. now rewrite lstrip_all_space.
  - rewrite lstrip_fix by exact H1.
    rewrite rstrip_spaces by assumption. now apply rstrip_fix.
Qed.

End StripFacts.

(** ** Facts about the match of [VALID_PATTERN] *)

Section MatchFacts.

Lemma allowed_iff (c : char) : allowed c = true <-> allow_list c.
Proof.
  unfold allowed, allow_list, in_set, ALLOWED. simpl.
  rewrite !orb_true_iff, !andb_true_iff, !N.leb_le, !N.eqb_eq.
  intuition discriminate.
Qed.

Lemma allowed_false_iff (c : char) : allowed c = false <-> ~ allow_list c.
Proof.
  rewrite <- allowed_iff. destruct (allowed c); split; congruence.
Qed.

(** After the repetition only [$] is left, and the match has to end at
    the end of the text: a newline before the end is not skipped. *)
Lemma match_at_end (pos : nat) (rest : str) :
  match_ops [AT_END] pos rest = true <-> rest = [].
Proof.
  simpl. destruct rest as [|c r]; simpl.
  - split; reflexivity.
  - rewrite andb_false_r. split; discriminate.
Qed.

Lemma repeat_one_to_end (items : list set_item) (lo : nat) (rest : str) :
  forall n pos,
    repeat_one items lo (match_ops [AT_END]) n pos rest = true
    <-> forallb (in_set items) rest = true /\ lo <= n + len rest.
Proof.
  unfold len. induction rest as [|c r IH]; intros n pos.
  - cbn [repeat_one forallb List.length orb].
    rewrite andb_true_iff, Nat.leb_le, match_at_end. intuition lia.
  - cbn [repeat_one forallb List.length].
    assert (Hk : match_ops [AT_END] pos (c :: r) = false).
    { destruct (match_ops [AT_END] pos (c :: r)) eqn:E; [|reflexivity].
      apply match_at_end in E. discriminate. }
    rewrite Hk, andb_false_r, orb_false_r, !andb_true_iff, IH.
    intuition lia.
Qed.

(** The full match of [VALID_PATTERN]: one character at least, and all
    of them in the set. *)
Lemma fullmatch_valid_iff (s : str) :
  fullmatch VALID_PATTERN s = true <-> s <> [] /\ forallb allowed s = true.
Proof.
  unfold fullmatch, VALID_PATTERN.
  cbn [match_ops Nat.eqb andb].
  rewrite repeat_one_to_end. fold allowed.
  unfold len. destruct s as [|c r]; cbn [List.length]; split; intros [H1 H2].
  - lia.
  - congruence.
  - split; [discriminate | assumption].
  - split; [assumption | lia].
Qed.

Lemma fullmatch_empty : fullmatch VALID_PATTERN [] = false.
Proof. reflexivity. Qed.

Lemma fullmatch_valid_false_iff (s : str) :
  fullmatch VALID_PATTERN s = false
  <-> s = [] \/ exists c, In c s /\ ~ allow_list c.
Proof.
  split.
  - intros H. destruct s as [|c r]; [now left|right].
    destruct (forallb allowed (c :: r)) eqn:E.
    + assert (fullmatch VALID_PATTERN (c :: r) = true)
        by (apply fullmatch_valid_iff; split; [discriminate|assumption]).
      congruence.
    + assert (Hex : existsb (fun x => negb (allowed x)) (c :: r) = true).
      { clear H. induction (c :: r) as [|x l IH]; simpl in *; [discriminate|].
        destruct (allowed x); simpl in *; auto. }
      apply existsb_exists in Hex as [x [Hin Hx]].
      exists x. split; [assumption|].
      apply allowed_false_iff. now destruct (allowed x).
  - intros [-> | [c [Hin Hc]]]; [reflexivity|].
    destruct (fullmatch VALID_PATTERN s) eqn:E; [|reflexivity].
    apply fullmatch_valid_iff in E as [_ E].
    rewrite forallb_forall in E. apply E in Hin.
    apply allowed_iff in Hin. contradiction.
Qed.

End MatchFacts.

(** ** Facts about the two stages and the pipeline *)

Section PipelineFacts.

Lemma filter_input_too_long (s : str) :
  MAX_INPUT_LENGTH < len s ->
  Filter.filter_input s = Raise (LengthExceeded MAX_INPUT_LENGTH).
Proof.
  intros H. unfold Filter.filter_input.
  now rewrite (proj2 (Nat.ltb_lt _ _) H).
Qed.

Lemma filter_input_in_range (s : str) :
  len s <= MAX_INPUT_LENGTH -> Filter.filter_input s = Return (strip s).
Proof.
  intros H. unfold Filter.filter_input.
  destruct (Nat.ltb_spec MAX_INPUT_LENGTH (len s)); [lia | reflexivity].
Qed.

Lemma validate_input_match (s : str) :
  fullmatch VALID_PATTERN s = true -> Validator.validate_input s = Return s.
Proof. intros H. unfold Validator.validate_input. now rewrite H. Qed.

Lemma validate_input_no_match (s : str) :
  fullmatch VALID_PATTERN s = false ->
  Validator.validate_input s = Raise InvalidCharacters.
Proof. intros H. unfold Validator.validate_input. now rewrite H. Qed.

(** The three ways through [process_request]. *)
Lemma process_request_cases (s : str) (l : log) :
  process_request s l =
  match Filter.filter_input s with
  | Raise e => ([], l ++ [error e])
  | Return f =>
      match Validator.validate_input f with
      | Raise e => ([], (l ++ [info (FilterOk f)]) ++ [error e])
      | Return v => (v, (l ++ [info (FilterOk f)]) ++ [info ValidationOk])
      end
  end.
Proof.
  unfold process_request, try_except, bindE, call, ret.
  destruct (Filter.filter_input s) as [f|e]; [|reflexivity].
  cbn. destruct (Validator.validate_input f) as [v|e]; reflexivity.
Qed.

Lemma process_request_too_long (s : str) (l : log) :
  MAX_INPUT_LENGTH < len s ->
  process_request s l = ([], l ++ [error (LengthExceeded MAX_INPUT_LENGTH)]).
Proof.
  intros H. now rewrite process_request_cases, filter_input_too_long.
Qed.

Lemma process_request_valid (s : str) (l : log) :
  len s <= MAX_INPUT_LENGTH -> fullmatch VALID_PATTERN (strip s) = true ->
  process_request s l
  = (strip s, (l ++ [info (FilterOk (strip s))]) ++ [info ValidationOk]).
Proof.
  intros H1 H2.
  now rewrite process_request_cases, filter_input_in_range, validate_input_match.
Qed.

Lemma process_request_invalid (s : str) (l : log) :
  len s <= MAX_INPUT_LENGTH -> fullmatch VALID_PATTERN (strip s) = false ->
  process_request s l
  = ([], (l ++ [info (FilterOk (strip s))]) ++ [error InvalidCharacters]).
Proof.
  intros H1 H2.
  now rewrite process_request_cases, filter_input_in_range, validate_input_no_match.
Qed.

(** Acceptance in terms of the input alone. *)
Lemma accepted_iff (s : str) :
  accepted s = true
  <-> len s <= MAX_INPUT_LENGTH /\ fullmatch VALID_PATTERN (strip s) = true.
Proof.
  unfold accepted, written.
  destruct (Nat.le_gt_cases (len s) MAX_INPUT_LENGTH) as [Hle|Hgt].
  - destruct (fullmatch VALID_PATTERN (strip s)) eqn:E.
    + rewrite process_request_valid by assumption. cbn. tauto.
    + rewrite process_request_invalid by assumption. cbn.
      split; [discriminate | intros [_ H]; discriminate].
  - rewrite process_request_too_long by assumption. cbn.
    split; [discriminate | lia].
Qed.

Lemma rejected_not_accepted (s : str) : rejected s = negb (accepted s).
Proof.
  unfold accepted, rejected, written.
  destruct (Nat.le_gt_cases (len s) MAX_INPUT_LENGTH) as [Hle|Hgt].
  - destruct (fullmatch VALID_PATTERN (strip s)) eqn:E.
    + now rewrite process_request_valid.
    + now rewrite process_request_invalid.
  - now rewrite process_request_too_long.
Qed.

(** What is returned does not depend on what was logged before. *)
Lemma returned_any_log (s : str) (l l' : log) : returned s l = returned s l'.
Proof.
  unfold returned. rewrite !process_request_cases.
  destruct (Filter.filter_input s) as [f|e]; [|reflexivity].
  destruct (Validator.validate_input f); reflexivity.
Qed.

Lemma returned_accepted (s : str) (l : log) :
  accepted s = true -> returned s l = strip s.
Proof.
  intros H. apply accepted_iff in H as [H1 H2].
  unfold returned. now rewrite process_request_valid.
Qed.

Lemma returned_not_accepted (s : str) (l : log) :
  accepted s = false -> returned s l = [].
Proof.
  intros H. unfold returned.
  destruct (Nat.le_gt_cases (len s) MAX_INPUT_LENGTH) as [Hle|Hgt].
  - destruct (fullmatch VALID_PATTERN (strip s)) eqn:E.
    + assert (accepted s = true) by (apply accepted_iff; auto). congruence.
    + now rewrite process_request_invalid.
  - now rewrite process_request_too_long.
Qed.

(** An accepted request returns a non-empty string, so a non-empty
    return value and acceptance are the same thing. *)
Lemma accepted_iff_nonempty (s : str) (l : log) :
  accepted s = true <-> returned s l <> [].
Proof.
  split.
  - intros H. rewrite (@returned_accepted s l H).
    apply accepted_iff in H as [_ H]. now apply fullmatch_valid_iff in H.
  - intros H. destruct (accepted s) eqn:E; [reflexivity|].
    now rewrite returned_not_accepted in H.
Qed.

Lemma strip_nil_iff (s : str) : strip s = [] <-> all_space s = true.
Proof.
  split; intros H.
  - destruct (strip_split s) as [l [r [Hs [Hl Hr]]]].
    rewrite H in Hs. rewrite Hs. unfold all_space in *.
    rewrite forallb_app, Hl. exact Hr.
  - exact (@strip_unique [] [] s eq_refl H eq_refl).
Qed.

End PipelineFacts.

(** ** The properties of the specification *)

(** C1, as stated, fails: the length test of [filter_input] runs before
    [strip], so 25 spaces followed by one letter are rejected although the
    trimmed text is one valid character. *)
Lemma C1_trimmed_length_counterexample :
  len (strip (replicate 25 0x20%N ++ of_string "a")) <= MAX_INPUT_LENGTH
  /\ fullmatch VALID_PATTERN (strip (replicate 25 0x20%N ++ of_string "a")) = true
  /\ returned (replicate 25 0x20%N ++ of_string "a") []
     <> strip (replicate 25 0x20%N ++ of_string "a").
Proof. split; [|split]; vm_compute; [lia | reflexivity | discriminate]. Qed.

(** C1, amended: for every string [s] whose length before trimming is at
    most MAX_INPUT_LENGTH and whose trimmed form fully matches the
    allow-list pattern, [process_request s] returns [strip s]. *)
Theorem C1_valid_input_returns_trimmed (s : str) (l : log) :
  len s <= MAX_INPUT_LENGTH ->
  fullmatch VALID_PATTERN (strip s) = true ->
  returned s l = strip s.
Proof.
  intros Hlen Hmatch. unfold returned.
  now rewrite process_request_valid.
Qed.

Lemma C1_valid_input_returns_trimmed_witness :
  returned (of_string "   Hello World   ") [] = strip (of_string "   Hello World   ").
Proof.
  apply (@C1_valid_input_returns_trimmed (of_string "   Hello World   ") []).
  - vm_compute. lia.
  - reflexivity.
Defined.

(** C2: for every string longer than MAX_INPUT_LENGTH, [process_request]
    returns the empty string. *)
Theorem C2_too_long_returns_empty (s : str) (l : log) :
  MAX_INPUT_LENGTH < len s -> returned s l = [].
Proof.
  intros H. unfold returned. now rewrite process_request_too_long.
Qed.

Lemma C2_too_long_returns_empty_witness :
  returned (replicate 26 0x41%N) [] = [].
Proof.
  apply (@C2_too_long_returns_empty (replicate 26 0x41%N) []).
  vm_compute. lia.
Defined.

(** C3: [validate_input s] raises exactly when [s] fails the anchored full
    match of the pattern, that is when [s] is empty or has a character
    outside the allow-list; otherwise it returns [s] itself. *)
Theorem C3_validate_input_spec (s : str) :
  ((exists e, Validator.validate_input s = Raise e)
   <-> fullmatch VALID_PATTERN s = false)
  /\ (fullmatch VALID_PATTERN s = false
      <-> s = [] \/ exists c, In c s /\ ~ allow_list c)
  /\ (forall v, Validator.validate_input s = Return v -> v = s)
  /\ Validator.validate_input s
     = if fullmatch VALID_PATTERN s then Return s else Raise InvalidCharacters.
Proof.
  split; [|split; [apply fullmatch_valid_false_iff|split]].
  - unfold Validator.validate_input.
    destruct (fullmatch VALID_PATTERN s); simpl; split.
    + intros [e He]. discriminate.
    + discriminate.
    + reflexivity.
    + intros _. now exists InvalidCharacters.
  - unfold Validator.validate_input.
    destruct (fullmatch VALID_PATTERN s); simpl; intros v Hv; congruence.
  - unfold Validator.validate_input.
    now destruct (fullmatch VALID_PATTERN s).
Qed.

Lemma C3_validate_input_spec_witness :
  Validator.validate_input (of_string "Valid_Input 123")
  = Return (of_string "Valid_Input 123")
  /\ Validator.validate_input (of_string "Invalid@Input#!") = Raise InvalidCharacters.
Proof.
  split.
  - now rewrite (proj2 (proj2 (proj2 (C3_validate_input_spec (of_string "Valid_Input 123"))))).
  - now rewrite (proj2 (proj2 (proj2 (C3_validate_input_spec (of_string "Invalid@Input#!"))))).
Defined.

(** C4: [filter_input s] raises the length error exactly when the length of
    [s] before trimming exceeds MAX_INPUT_LENGTH; a string of length 25
    passes the filter. *)
Theorem C4_filter_input_length (s : str) :
  (Filter.filter_input s = Raise (LengthExceeded 25) <-> 25 < len s)
  /\ ((exists e, Filter.filter_input s = Raise e) <-> MAX_INPUT_LENGTH < len s)
  /\ (len s = 25 -> Filter.filter_input s = Return (strip s)).
Proof.
  unfold Filter.filter_input. change MAX_INPUT_LENGTH with 25.
  destruct (Nat.ltb_spec 25 (len s)) as [H|H].
  - split; [|split]; [tauto | | lia].
    split; [tauto | intros _; now exists (LengthExceeded 25)].
  - split; [|split].
    + split; [discriminate | lia].
    + split; [intros [e He]; discriminate | lia].
    + reflexivity.
Qed.

Lemma C4_filter_input_length_witness :
  Filter.filter_input (replicate 25 0x41%N) = Return (strip (replicate 25 0x41%N))
  /\ Filter.filter_input (replicate 26 0x41%N) = Raise (LengthExceeded 25).
Proof.
  split.
  - apply (proj2 (proj2 (C4_filter_input_length (replicate 25 0x41%N)))).
    reflexivity.
  - apply (proj1 (C4_filter_input_length (replicate 26 0x41%N))).
    vm_compute. lia.
Defined.

(** C5: when the trimmed input has a character outside the allow-list,
    [process_request] returns the empty string. *)
Theorem C5_disallowed_char_returns_empty (s : str) (l : log) :
  (exists c, In c (strip s) /\ ~ allow_list c) -> returned s l = [].
Proof.
  intros H. apply returned_not_accepted.
  destruct (accepted s) eqn:E; [|reflexivity].
  apply accepted_iff in E as [_ E].
  assert (fullmatch VALID_PATTERN (strip s) = false)
    by (apply fullmatch_valid_false_iff; now right).
  congruence.
Qed.

Lemma C5_disallowed_char_returns_empty_witness :
  returned (of_string "Invalid@Input#!") [] = [].
Proof.
  apply (@C5_disallowed_char_returns_empty (of_string "Invalid@Input#!") []).
  exists 0x40%N. split.
  - vm_compute. tauto.
  - intros H. apply allowed_iff in H. vm_compute in H. discriminate.
Defined.

(** C6: [process_request] is idempotent on accepted inputs: the value
    returned for an accepted [s] is accepted in turn and is returned
    unchanged. *)
Theorem C6_process_request_idempotent (s : str) (l l' : log) :
  accepted s = true ->
  accepted (returned s l) = true
  /\ returned (returned s l) l' = returned s l.
Proof.
  intros H. rewrite (@returned_accepted s l H).
  apply accepted_iff in H as [Hlen Hmatch].
  assert (Hacc : accepted (strip s) = true).
  { apply accepted_iff. rewrite strip_idempotent. split; [|assumption].
    pose proof (strip_length s). lia. }
  split; [assumption|].
  rewrite (@returned_accepted (strip s) l' Hacc). apply strip_idempotent.
Qed.

Lemma C6_process_request_idempotent_witness :
  accepted (returned (of_string "   Hello World   ") []) = true
  /\ returned (returned (of_string "   Hello World   ") []) []
     = returned (of_string "   Hello World   ") [].
Proof.
  apply (@C6_process_request_idempotent (of_string "   Hello World   ") [] []).
  reflexivity.
Defined.

(** C7: whatever the input, an accepted (equivalently: non-empty) output of
    [process_request] is at most MAX_INPUT_LENGTH long, also after
    trimming, and fully matches the allow-list pattern. *)
Theorem C7_accepted_output_invariants (s : str) (l : log) :
  accepted s = true \/ returned s l <> [] ->
  len (returned s l) <= MAX_INPUT_LENGTH
  /\ len (strip (returned s l)) <= MAX_INPUT_LENGTH
  /\ fullmatch VALID_PATTERN (returned s l) = true.
Proof.
  intros H.
  assert (Hacc : accepted s = true).
  { destruct H as [H|H]; [assumption|]. now apply (accepted_iff_nonempty s l). }
  rewrite (@returned_accepted s l Hacc).
  apply accepted_iff in Hacc as [Hlen Hmatch].
  pose proof (strip_length s). pose proof (strip_length (strip s)).
  repeat split; [lia | lia | assumption].
Qed.

Lemma C7_accepted_output_invariants_witness :
  len (returned (of_string "Valid_Input 123") []) <= MAX_INPUT_LENGTH
  /\ len (strip (returned (of_string "Valid_Input 123") [])) <= MAX_INPUT_LENGTH
  /\ fullmatch VALID_PATTERN (returned (of_string "Valid_Input 123") []) = true.
Proof.
  apply (@C7_accepted_output_invariants (of_string "Valid_Input 123") []).
  left. reflexivity.
Defined.

(** C8: on success [filter_input] returns [strip s], which is [s] with a
    run of whitespace cut off at each end and nothing else changed; the
    result has no whitespace left at its edges. The double space inside
    "a  b" stays. *)
Theorem C8_filter_input_trims_edges_only :
  (forall s : str,
      len s <= MAX_INPUT_LENGTH ->
      Filter.filter_input s = Return (strip s)
      /\ (exists l r, s = l ++ strip s ++ r
                      /\ all_space l = true /\ all_space r = true)
      /\ trimmed (strip s) = true)
  /\ Filter.filter_input (of_string "a  b") = Return (of_string "a  b").
Proof.
  split; [|reflexivity].
  intros s H. split; [now apply filter_input_in_range|].
  split; [apply strip_split | apply strip_trimmed].
Qed.

Lemma C8_filter_input_trims_edges_only_witness :
  Filter.filter_input (of_string "  a  b ") = Return (of_string "a  b").
Proof.
  destruct (proj1 C8_filter_input_trims_edges_only (of_string "  a  b ")) as [H _].
  - vm_compute. lia.
  - exact H.
Defined.

(** C9, as stated, fails: the empty string is not accepted. *)
Lemma C9_empty_not_accepted_counterexample :
  ~ (accepted [] = true /\ returned [] [] = []).
Proof. intros [H _]. vm_compute in H. discriminate. Qed.

(** C9, amended: the empty string is rejected (the validator raises on it)
    and [process_request] returns the empty string for it, after one
    "filter succeeded" record and one ERROR record. *)
Theorem C9_empty_input_rejected (l : log) :
  accepted [] = false
  /\ rejected [] = true
  /\ process_request [] l
     = ([], (l ++ [info (FilterOk [])]) ++ [error InvalidCharacters]).
Proof.
  split; [reflexivity | split; [reflexivity|]].
  now rewrite process_request_cases.
Qed.

(** C10: [validate_input] raises on the empty string, so every input whose
    trimmed form is empty, all-whitespace inputs of length at most 25
    among them, goes through the [except] branch of [process_request]. *)
Theorem C10_empty_after_trim_rejected :
  Validator.validate_input [] = Raise InvalidCharacters
  /\ (forall (s : str) (l : log),
         strip s = [] \/ all_space s = true ->
         rejected s = true /\ accepted s = false /\ returned s l = []
         /\ (len s <= MAX_INPUT_LENGTH ->
             process_request s l
             = ([], (l ++ [info (FilterOk [])]) ++ [error InvalidCharacters]))).
Proof.
  split; [reflexivity|]. intros s l H.
  assert (Hs : strip s = []).
  { destruct H as [H|H]; [assumption | now apply strip_nil_iff]. }
  assert (Hacc : accepted s = false).
  { destruct (accepted s) eqn:E; [|reflexivity].
    apply accepted_iff in E as [_ E]. rewrite Hs in E. discriminate. }
  rewrite rejected_not_accepted, Hacc.
  repeat split; [now apply returned_not_accepted|].
  intros Hlen. rewrite process_request_invalid by (rewrite ?Hs; auto).
  now rewrite Hs.
Qed.

Lemma C10_empty_after_trim_rejected_witness :
  rejected (of_string "     ") = true
  /\ accepted (of_string "     ") = false
  /\ returned (of_string "     ") [] = []
  /\ (len (of_string "     ") <= MAX_INPUT_LENGTH ->
      process_request (of_string "     ") []
      = ([], ([] ++ [info (FilterOk [])]) ++ [error InvalidCharacters])).
Proof.
  apply (proj2 C10_empty_after_trim_rejected (of_string "     ") []).
  right. reflexivity.
Defined.

(** ** Further properties of the pipeline and of [main] *)

Section ChannelFacts.

Lemma written_cases (s : str) (l : log) :
  written s l
  = l ++ (if MAX_INPUT_LENGTH <? len s
          then [error (LengthExceeded MAX_INPUT_LENGTH)]
          else if fullmatch VALID_PATTERN (strip s)
               then [info (FilterOk (strip s)); info ValidationOk]
               else [info (FilterOk (strip s)); error InvalidCharacters]).
Proof.
  unfold written. destruct (Nat.ltb_spec MAX_INPUT_LENGTH (len s)) as [H|H].
  - now rewrite process_request_too_long.
  - destruct (fullmatch VALID_PATTERN (strip s)) eqn:E.
    + rewrite process_request_valid by assumption. cbn [snd].
      now rewrite <- app_assoc.
    + rewrite process_request_invalid by assumption. cbn [snd].
      now rewrite <- app_assoc.
Qed.

Lemma accepted_cases (s : str) :
  accepted s
  = negb (MAX_INPUT_LENGTH <? len s) && fullmatch VALID_PATTERN (strip s).
Proof.
  unfold accepted. rewrite written_cases.
  destruct (MAX_INPUT_LENGTH <? len s); [reflexivity|].
  now destruct (fullmatch VALID_PATTERN (strip s)).
Qed.

Lemma forallb_allowed_iff (s : str) :
  forallb allowed s = true <-> forall c, In c s -> allow_list c.
Proof.
  rewrite forallb_forall. split; intros H c Hc; apply allowed_iff; auto.
Qed.

Lemma hd_last_rev (c : char) (m : str) :
  exists d t, rev (c :: m) = d :: t /\ d = last (c :: m) c.
Proof.
  destruct (rev (c :: m)) as [|d t] eqn:E.
  - apply (f_equal (@List.length _)) in E. rewrite length_rev in E. discriminate.
  - exists d, t. split; [reflexivity|].
    assert (Hr : c :: m = rev t ++ [d]).
    { rewrite <- (rev_involutive (c :: m)), E. reflexivity. }
    rewrite Hr. now rewrite last_last.
Qed.

End ChannelFacts.

(** X1: [main] announces success exactly for an accepted input, and then
    prints the trimmed input; for every other input it prints the failure
    line only. An input is accepted when it has at most 25 characters and
    its trimmed form is non-empty and within the allow-list. *)
Theorem X1_main_reports_acceptance (s : str) (l : log) :
  main s l
  = ((if accepted s then [SuccessNotice; Data (strip s)] else [FailureNotice]),
     written s l)
  /\ (accepted s = true
      <-> len s <= MAX_INPUT_LENGTH /\ strip s <> []
          /\ forall c, In c (strip s) -> allow_list c).
Proof.
  split.
  - unfold main, bind, written.
    pose proof (@returned_accepted s l) as Hacc.
    pose proof (@returned_not_accepted s l) as Hrej.
    pose proof (accepted_iff_nonempty s l) as Hne.
    unfold returned in *.
    destruct (process_request s l) as [v l'] eqn:E. cbn [fst snd] in *.
    destruct (accepted s).
    + rewrite Hacc in * by reflexivity.
      destruct (strip s); [now destruct (proj1 Hne eq_refl)|reflexivity].
    + now rewrite Hrej.
  - rewrite accepted_iff, fullmatch_valid_iff, forallb_allowed_iff. tauto.
Qed.

(** X2: a call of [process_request] leaves the records already in the log
    alone and adds one or two records; among them there is exactly one
    ERROR record when the request is rejected and none when it is
    accepted. *)
Theorem X2_log_append_only (s : str) (l : log) :
  written s l = l ++ written s []
  /\ 1 <= List.length (written s []) <= 2
  /\ List.length (List.filter is_error (written s []))
     = if accepted s then 0 else 1.
Proof.
  rewrite accepted_cases, !written_cases.
  destruct (MAX_INPUT_LENGTH <? len s);
    [|destruct (fullmatch VALID_PATTERN (strip s))];
    cbn; repeat split; lia.
Qed.

(** X3: [process_request] returns the empty string exactly for the
    rejected requests: an accepted request never returns it. *)
Theorem X3_empty_result_iff_rejected (s : str) (l : log) :
  returned s l = [] <-> rejected s = true.
Proof.
  rewrite rejected_not_accepted. pose proof (accepted_iff_nonempty s l) as H.
  destruct (accepted s) eqn:Ha; simpl; split; intros E.
  - exfalso. apply (proj1 H eq_refl). exact E.
  - discriminate.
  - reflexivity.
  - now apply returned_not_accepted.
Qed.

(** X4: the value returned for an accepted request starts and ends with a
    letter, a digit, a hyphen or an underscore: whitespace survives only
    inside it. *)
Theorem X4_accepted_output_edges (s : str) (l : log) :
  accepted s = true ->
  exists c m, returned s l = c :: m
              /\ word_char c /\ word_char (last (c :: m) c).
Proof.
  intros H. rewrite (@returned_accepted s l H).
  apply accepted_iff in H as [_ H]. apply fullmatch_valid_iff in H as [Hne Hall].
  pose proof (strip_trimmed s) as Ht.
  destruct (strip s) as [|c m]; [congruence|]. exists c, m.
  rewrite forallb_allowed_iff in Hall.
  unfold trimmed in Ht. apply andb_true_iff in Ht as [H1 H2].
  split; [reflexivity|]. split; split.
  - apply Hall. now left.
  - simpl in H1. now destruct (isspace c).
  - apply Hall. destruct (hd_last_rev c m) as [d [t [E ->]]].
    apply in_rev. rewrite E. now left.
  - destruct (hd_last_rev c m) as [d [t [E Hd]]]. rewrite E in H2.
    simpl in H2. rewrite <- Hd. now destruct (isspace d).
Qed.

Lemma X4_accepted_output_edges_witness :
  exists c m, returned (of_string "   Hello World   ") [] = c :: m
              /\ word_char c /\ word_char (last (c :: m) c).
Proof.
  apply (@X4_accepted_output_edges (of_string "   Hello World   ") []).
  reflexivity.
Defined.

(** X5: whitespace around a valid text counts toward the limit: a trimmed
    text that matches the pattern, padded with whitespace on both sides, is
    accepted exactly when the padded length is at most 25, and then the
    text itself is returned. *)
Theorem X5_padding_counts_toward_limit (p m q : str) (l : log) :
  all_space p = true -> all_space q = true ->
  trimmed m = true -> fullmatch VALID_PATTERN m = true ->
  accepted (p ++ m ++ q) = (len p + len m + len q <=? MAX_INPUT_LENGTH)
  /\ returned (p ++ m ++ q) l
     = if len p + len m + len q <=? MAX_INPUT_LENGTH then m else [].
Proof.
  intros Hp Hq Ht Hm.
  assert (Hacc : accepted (p ++ m ++ q)
                 = (len p + len m + len q <=? MAX_INPUT_LENGTH)).
  { rewrite accepted_cases, (@strip_unique p m q Hp Hq Ht), Hm, andb_true_r.
    unfold len. rewrite !length_app.
    destruct (Nat.ltb_spec MAX_INPUT_LENGTH
                (List.length p + (List.length m + List.length q)));
      destruct (Nat.leb_spec (List.length p + List.length m + List.length q)
                  MAX_INPUT_LENGTH); simpl; try reflexivity; lia. }
  split; [exact Hacc|]. rewrite <- Hacc.
  destruct (accepted (p ++ m ++ q)) eqn:E.
  - rewrite (@returned_accepted _ l E). now apply strip_unique.
  - now apply returned_not_accepted.
Qed.

Lemma X5_padding_counts_toward_limit_witness :
  accepted (replicate 20 0x20%N ++ of_string "abc" ++ replicate 3 0x09%N)
  = (20 + 3 + 3 <=? MAX_INPUT_LENGTH)
  /\ returned (replicate 20 0x20%N ++ of_string "abc" ++ replicate 3 0x09%N) []
     = if 20 + 3 + 3 <=? MAX_INPUT_LENGTH then of_string "abc" else [].
Proof.
  apply (@X5_padding_counts_toward_limit
           (replicate 20 0x20%N) (of_string "abc") (replicate 3 0x09%N) []);
    reflexivity.
Defined.

(** X6: the trimmed text is written to the log before it is validated: for
    an input of at most 25 characters the first new record carries the
    trimmed input whether or not it is valid, while an input that is too
    long leaves only the length error in the log. *)
Theorem X6_filtered_text_logged_first (s : str) (l : log) :
  (len s <= MAX_INPUT_LENGTH ->
   exists last_record,
     written s l = l ++ [info (FilterOk (strip s)); last_record])
  /\ (MAX_INPUT_LENGTH < len s ->
      written s l = l ++ [error (LengthExceeded MAX_INPUT_LENGTH)]).
Proof.
  rewrite written_cases. split; intros H.
  - destruct (Nat.ltb_spec MAX_INPUT_LENGTH (len s)); [lia|].
    destruct (fullmatch VALID_PATTERN (strip s)); eexists; reflexivity.
  - now rewrite (proj2 (Nat.ltb_lt _ _) H).
Qed.

Lemma X6_filtered_text_logged_first_witness :
  (exists last_record,
      written (of_string "Invalid@Input#!") []
      = [] ++ [info (FilterOk (strip (of_string "Invalid@Input#!"))); last_record])
  /\ written (replicate 26 0x41%N) [] = [] ++ [error (LengthExceeded MAX_INPUT_LENGTH)].
Proof.
  split.
  - apply (proj1 (X6_filtered_text_logged_first (of_string "Invalid@Input#!") [])).
    vm_compute. lia.
  - apply (proj2 (X6_filtered_text_logged_first (replicate 26 0x41%N) [])).
    vm_compute. lia.
Defined.

(** ** Properties of the performance test *)

Section GeneratorFacts.

Lemma all_space_allowed (s : str) :
  all_space s = true -> forall c, In c s -> allow_list c.
Proof.
  unfold all_space. rewrite forallb_forall. intros H c Hc.
  right. right. right. left. now apply H.
Qed.

(** Every character of an accepted input is in the allow-list: what
    [strip] removes is whitespace, and whitespace is in the list. *)
Lemma accepted_chars (s : str) :
  accepted s = true -> forall c, In c s -> allow_list c.
Proof.
  intros H c Hc. apply accepted_iff in H as [_ H].
  apply fullmatch_valid_iff in H as [_ H]. rewrite forallb_allowed_iff in H.
  destruct (strip_split s) as [p [q [Hs [Hp Hq]]]].
  rewrite Hs in Hc. apply in_app_or in Hc as [Hc|Hc].
  - now apply (all_space_allowed p).
  - apply in_app_or in Hc as [Hc|Hc]; [now apply H|].
    now apply (all_space_allowed q).
Qed.

Lemma strip_incl (s : str) (c : char) : In c (strip s) -> In c s.
Proof.
  intros H. destruct (strip_split s) as [p [q [Hs _]]].
  rewrite Hs. apply in_or_app. right. apply in_or_app. now left.
Qed.

(** For a short text made of allowed characters only, all that can go
    wrong is that nothing is left after trimming. *)
Lemma accepted_of_allowed (s : str) :
  len s <= MAX_INPUT_LENGTH -> (forall c, In c s -> allow_list c) ->
  accepted s = negb (all_space s).
Proof.
  intros Hlen Hall. rewrite accepted_cases.
  destruct (Nat.ltb_spec MAX_INPUT_LENGTH (len s)); [lia|]. cbn [negb andb].
  destruct (all_space s) eqn:E.
  - apply strip_nil_iff in E. now rewrite E.
  - apply fullmatch_valid_iff. split.
    + intros Hn. apply strip_nil_iff in Hn. congruence.
    + apply forallb_allowed_iff. intros c Hc. apply Hall. now apply strip_incl.
Qed.

Lemma letters_allowed (c : char) : In c letters -> allow_list c.
Proof.
  assert (H : forallb allowed letters = true) by (vm_compute; reflexivity).
  rewrite forallb_allowed_iff in H. apply H.
Qed.

Lemma letters_space (c : char) :
  In c letters -> isspace c = true -> c = 0x20%N.
Proof.
  assert (H : forallb (fun x => negb (isspace x) || (x =? 0x20)%N) letters = true)
    by (vm_compute; reflexivity).
  rewrite forallb_forall in H. intros Hc Hs. specialize (H c Hc).
  rewrite Hs in H. simpl in H. now apply N.eqb_eq.
Qed.

Lemma choice_letters_in (st : Random.state) : In (fst (choice letters st)) letters.
Proof.
  unfold choice, randbelow, bindR, next, retR. cbn [fst].
  apply nth_In. change (N.of_nat (len letters)) with 65%N.
  change (List.length letters) with 65.
  pose proof (N.mod_upper_bound (st 0) 65). lia.
Qed.

Lemma join_choices_step (n : nat) (st : Random.state) :
  join_choices (S n) st
  = (fst (choice letters st) :: fst (join_choices n (snd (choice letters st))),
     snd (join_choices n (snd (choice letters st)))).
Proof.
  cbn [join_choices]. unfold bindR at 1.
  destruct (choice letters st) as [c st1]. cbn [fst snd]. unfold bindR.
  destruct (join_choices n st1) as [r st2]. reflexivity.
Qed.

Lemma join_choices_spec (n : nat) :
  forall st,
    len (fst (join_choices n st)) = n
    /\ forall c, In c (fst (join_choices n st)) -> In c letters.
Proof.
  induction n as [|n IH]; intros st.
  - split; [reflexivity | intros c []].
  - rewrite join_choices_step. cbn [fst len List.length].
    destruct (IH (snd (choice letters st))) as [Hl Hin]. unfold len in Hl.
    split; [now rewrite Hl|].
    intros c [<-|Hc]; [apply choice_letters_in | now apply Hin].
Qed.

(** The generator that always draws 62 picks the space, [letters[62]]. *)
Lemma join_choices_spaces (n : nat) :
  join_choices n (fun _ => 62%N) = (replicate n 0x20%N, fun _ => 62%N).
Proof.
  induction n as [|n IH]; [reflexivity|].
  rewrite join_choices_step.
  change (snd (choice letters (fun _ => 62%N))) with (fun _ : nat => 62%N).
  rewrite IH. reflexivity.
Qed.

Lemma all_space_letters_iff (s : str) :
  (forall c, In c s -> In c letters) ->
  all_space s = true <-> s = replicate (len s) 0x20%N.
Proof.
  intros Hin. split.
  - intros H. unfold all_space in H. rewrite forallb_forall in H.
    induction s as [|c r IH]; [reflexivity|].
    cbn [len List.length replicate repeat]. f_equal.
    + apply letters_space; [apply Hin | apply H]; now left.
    + apply IH; intros x Hx; [apply Hin | apply H]; now right.
  - intros ->. unfold all_space, replicate. apply forallb_forall.
    intros x Hx. apply repeat_spec in Hx. now subst x.
Qed.

Lemma bang_rejected (s : str) : accepted (s ++ of_string "!@#") = false.
Proof.
  destruct (accepted (s ++ of_string "!@#")) eqn:E; [|reflexivity].
  assert (H : allow_list 0x21%N).
  { apply (@accepted_chars _ E). apply in_or_app. right. now left. }
  apply allowed_iff in H. discriminate.
Qed.

Lemma count_requests_step (data : str) (rest : list str) (a b : nat) :
  count_requests (data :: rest) a b
  = if accepted data then count_requests rest (S a) b
    else count_requests rest a (S b).
Proof.
  cbn [count_requests]. rewrite accepted_cases.
  unfold Filter.filter_input, Validator.validate_input.
  destruct (MAX_INPUT_LENGTH <? len data); [reflexivity|].
  now destruct (fullmatch VALID_PATTERN (strip data)).
Qed.

Lemma count_requests_spec (test_data : list str) :
  forall a b,
    count_requests test_data a b
    = (a + List.length (List.filter accepted test_data),
       b + List.length (List.filter rejected test_data)).
Proof.
  induction test_data as [|d rest IH]; intros a b.
  - cbn. now rewrite !Nat.add_0_r.
  - rewrite count_requests_step. cbn [List.filter].
    rewrite rejected_not_accepted.
    destruct (accepted d); cbn [negb List.length]; rewrite IH; f_equal; lia.
Qed.

Lemma filter_split_length (test_data : list str) :
  List.length (List.filter accepted test_data)
  + List.length (List.filter rejected test_data)
  = List.length test_data.
Proof.
  induction test_data as [|d rest IH]; [reflexivity|].
  cbn [List.filter List.length]. rewrite rejected_not_accepted.
  destruct (accepted d); cbn [negb List.length]; lia.
Qed.

End GeneratorFacts.

Section TestDataFacts.

(** The two branches of one turn of the data loop. *)
Lemma generate_item_cases (st : Random.state) :
  exists length st',
    ((1 <= length <= 25)%Z
     /\ generate_item st = generate_random_string length st')
    \/ ((1 <= length <= 35)%Z
        /\ generate_item st
           = (fst (generate_random_string length st') ++ of_string "!@#",
              snd (generate_random_string length st'))).
Proof.
  unfold generate_item, random, randint, randbelow, next, bindR, retR.
  change (Z.of_nat MAX_INPUT_LENGTH) with 25%Z.
  change (Z.to_N (25 - 1 + 1)) with 25%N.
  change (Z.to_N (25 + 10 - 1 + 1)) with 35%N.
  destruct (st 0%nat mod 0x20000000000000 <? NINE_TENTHS)%N.
  - exists (1 + Z.of_N (st 1%nat mod 25)%N)%Z, (fun i => st (S (S i))).
    left. split; [|reflexivity].
    assert (H : (st 1%nat mod 25 < 25)%N) by (apply N.mod_upper_bound; discriminate).
    generalize dependent (st 1%nat mod 25)%N. intros k Hk. lia.
  - exists (1 + Z.of_N (st 1%nat mod 35)%N)%Z, (fun i => st (S (S i))).
    right.
    assert (H : (st 1%nat mod 35 < 35)%N) by (apply N.mod_upper_bound; discriminate).
    split; [generalize dependent (st 1%nat mod 35)%N; intros k Hk; lia|].
    now destruct (generate_random_string (1 + Z.of_N (st 1%nat mod 35)%N)%Z
                    (fun i => st (S (S i)))).
Qed.

Lemma generate_items_step (n : nat) (st : Random.state) :
  generate_items (S n) st
  = (fst (generate_item st) :: fst (generate_items n (snd (generate_item st))),
     snd (generate_items n (snd (generate_item st)))).
Proof.
  cbn [generate_items]. unfold bindR at 1.
  destruct (generate_item st) as [d st1]. cbn [fst snd]. unfold bindR.
  destruct (generate_items n st1) as [r st2]. reflexivity.
Qed.

Lemma generate_items_length (n : nat) :
  forall st, List.length (fst (generate_items n st)) = n.
Proof.
  induction n as [|n IH]; intros st; [reflexivity|].
  rewrite generate_items_step. cbn [fst List.length]. now rewrite IH.
Qed.

Lemma generate_items_in (n : nat) :
  forall st d, In d (fst (generate_items n st)) ->
               exists st0, d = fst (generate_item st0).
Proof.
  induction n as [|n IH]; intros st d H; [destruct H|].
  rewrite generate_items_step in H. cbn [fst] in H.
  destruct H as [<-|H]; [now exists st | now apply IH in H].
Qed.

End TestDataFacts.

(** X7: [generate_random_string length] has [length] characters (none for
    a negative [length]), every one of them taken from [letters] and hence
    in the allow-list, so for a positive [length] the validator returns it
    as it is, whatever the generator draws. *)
Theorem X7_generated_string_valid (length : Z) (st : Random.state) :
  len (fst (generate_random_string length st)) = Z.to_nat length
  /\ (forall c, In c (fst (generate_random_string length st)) ->
                In c letters /\ allow_list c)
  /\ ((0 < length)%Z ->
      Validator.validate_input (fst (generate_random_string length st))
      = Return (fst (generate_random_string length st))).
Proof.
  unfold generate_random_string.
  destruct (join_choices_spec (Z.to_nat length) st) as [Hlen Hin].
  split; [exact Hlen|]. split.
  - intros c Hc. split; [now apply Hin | apply letters_allowed; now apply Hin].
  - intros Hpos. apply validate_input_match, fullmatch_valid_iff. split.
    + intros Hn. rewrite Hn in Hlen. cbn in Hlen. lia.
    + apply forallb_allowed_iff. intros c Hc. apply letters_allowed. now apply Hin.
Qed.

Lemma X7_generated_string_valid_witness :
  Validator.validate_input (fst (generate_random_string 3 (fun i => N.of_nat i)))
  = Return (fst (generate_random_string 3 (fun i => N.of_nat i))).
Proof.
  apply (proj2 (proj2 (X7_generated_string_valid 3 (fun i => N.of_nat i)))).
  reflexivity.
Defined.

(** X8: a string generated for the valid share of the test data, of 1 to
    25 characters, is rejected by the pipeline exactly when every draw
    picked the space; the generator that always draws 62 produces such a
    string, so this share is not always accepted. *)
Theorem X8_generated_valid_item (length : Z) (st : Random.state) :
  (1 <= length <= 25)%Z ->
  (accepted (fst (generate_random_string length st)) = false
   <-> fst (generate_random_string length st)
       = replicate (Z.to_nat length) 0x20%N)
  /\ accepted (fst (generate_random_string length (fun _ => 62%N))) = false.
Proof.
  intros Hrange.
  assert (Hiff : forall st0,
             accepted (fst (generate_random_string length st0)) = false
             <-> fst (generate_random_string length st0)
                 = replicate (Z.to_nat length) 0x20%N).
  { intros st0. unfold generate_random_string.
    destruct (join_choices_spec (Z.to_nat length) st0) as [Hlen Hin].
    rewrite accepted_of_allowed.
    - rewrite negb_false_iff, (@all_space_letters_iff _ Hin), Hlen. tauto.
    - rewrite Hlen. unfold MAX_INPUT_LENGTH. lia.
    - intros c Hc. apply letters_allowed. now apply Hin. }
  split; [apply Hiff|]. apply Hiff.
  unfold generate_random_string. now rewrite join_choices_spaces.
Qed.

Lemma X8_generated_valid_item_witness :
  (accepted (fst (generate_random_string 4 (fun i => N.of_nat i))) = false
   <-> fst (generate_random_string 4 (fun i => N.of_nat i))
       = replicate (Z.to_nat 4) 0x20%N)
  /\ accepted (fst (generate_random_string 4 (fun _ => 62%N))) = false.
Proof.
  apply (@X8_generated_valid_item 4 (fun i => N.of_nat i)). lia.
Defined.

(** X9: an input with a character outside the allow-list anywhere in it,
    not only in its trimmed form, is rejected and the empty string is
    returned: [strip] removes whitespace only, and whitespace is allowed. *)
Theorem X9_disallowed_anywhere_rejected (s : str) (l : log) :
  (exists c, In c s /\ ~ allow_list c) ->
  rejected s = true /\ returned s l = [].
Proof.
  intros [c [Hc Hn]].
  assert (E : accepted s = false).
  { destruct (accepted s) eqn:E; [|reflexivity].
    destruct Hn. now apply (@accepted_chars s E). }
  rewrite rejected_not_accepted, E. split; [reflexivity|].
  now apply returned_not_accepted.
Qed.

Lemma X9_disallowed_anywhere_rejected_witness :
  rejected (of_string " ab;c ") = true /\ returned (of_string " ab;c ") [] = [].
Proof.
  apply (@X9_disallowed_anywhere_rejected (of_string " ab;c ") []).
  exists 0x3B%N. split.
  - vm_compute. tauto.
  - intros H. apply allowed_iff in H. vm_compute in H. discriminate.
Defined.

(** X10: the counting loop of the performance test counts as successes
    exactly the items that [process_request] accepts and as failures
    exactly those it rejects, so the two counters add up to the number of
    items. *)
Theorem X10_count_requests_agrees (test_data : list str) :
  count_requests test_data 0 0
  = (List.length (List.filter accepted test_data),
     List.length (List.filter rejected test_data))
  /\ fst (count_requests test_data 0 0) + snd (count_requests test_data 0 0)
     = List.length test_data.
Proof.
  rewrite count_requests_spec. cbn [fst snd Nat.add].
  split; [reflexivity | apply filter_split_length].
Qed.

(** X11: [generate_test_data num_requests] holds [num_requests] items
    (none for a negative count). Each item is either 1 to 25 characters of
    [letters], or 1 to 35 such characters followed by "!@#"; the items of
    the second kind are all rejected by the pipeline. *)
Theorem X11_test_data_shape (num_requests : Z) (st : Random.state) :
  List.length (fst (generate_test_data num_requests st)) = Z.to_nat num_requests
  /\ forall d, In d (fst (generate_test_data num_requests st)) ->
       (1 <= len d <= 25 /\ forall c, In c d -> In c letters)
       \/ (exists s, d = s ++ of_string "!@#"
                     /\ 1 <= len s <= 35
                     /\ (forall c, In c s -> In c letters)
                     /\ rejected d = true).
Proof.
  unfold generate_test_data. split; [apply generate_items_length|].
  intros d Hd. apply generate_items_in in Hd as [st0 ->].
  destruct (generate_item_cases st0) as [length [st' [[Hr E]|[Hr E]]]];
    rewrite E; cbn [fst]; unfold generate_random_string;
    destruct (join_choices_spec (Z.to_nat length) st') as [Hlen Hin].
  - left. split; [rewrite Hlen; lia | intros c Hc; now apply Hin].
  - right. exists (fst (join_choices (Z.to_nat length) st')).
    split; [reflexivity|]. split; [rewrite Hlen; lia|].
    split; [intros c Hc; now apply Hin|].
    now rewrite rejected_not_accepted, bang_rejected.
Qed.

(** X12: when the counting loop of [run_performance_test] ends,
    [success_count + failure_count] is [num_requests] (0 for a negative
    count) whatever the generator draws, and [success_count] is the number
    of generated items the pipeline accepts. *)
Theorem X12_performance_counts (num_requests : Z) (st : Random.state) :
  fst (fst (run_performance_test num_requests st))
  + snd (fst (run_performance_test num_requests st))
  = Z.to_nat num_requests
  /\ fst (fst (run_performance_test num_requests st))
     = List.length (List.filter accepted (fst (generate_test_data num_requests st))).
Proof.
  unfold run_performance_test, bindR, retR.
  pose proof (generate_items_length (Z.to_nat num_requests) st) as Hlen.
  fold (generate_test_data num_requests) in Hlen.
  destruct (generate_test_data num_requests st) as [data st1].
  cbn [fst snd] in *. rewrite count_requests_spec. cbn [fst snd Nat.add].
  split; [|reflexivity]. now rewrite filter_split_length.
Qed.

Lemma X11_test_data_shape_witness :
  (1 <= len (of_string "cd") <= 25 /\ forall c, In c (of_string "cd") -> In c letters)
  \/ (exists s, of_string "cd" = s ++ of_string "!@#"
                /\ 1 <= len s <= 35
                /\ (forall c, In c s -> In c letters)
                /\ rejected (of_string "cd") = true).
Proof.
  apply (proj2 (X11_test_data_shape 2 (fun i => N.of_nat i)) (of_string "cd")).
  vm_compute. left. reflexivity.
Defined.

(** X13: the filter is a projection: what it returns is never longer than
    what it was given, and passes the filter again unchanged. *)
Theorem X13_filter_input_projection (s t : str) :
  Filter.filter_input s = Return t ->
  len t <= len s /\ Filter.filter_input t = Return t.
Proof.
  unfold Filter.filter_input.
  destruct (Nat.ltb_spec MAX_INPUT_LENGTH (len s)) as [H|H]; [discriminate|].
  intros E. injection E as <-. pose proof (strip_length s) as Hl.
  split; [exact Hl|].
  destruct (Nat.ltb_spec MAX_INPUT_LENGTH (len (strip s))); [lia|].
  now rewrite strip_idempotent.
Qed.

Lemma X13_filter_input_projection_witness :
  len (of_string "a  b") <= len (of_string "  a  b ")
  /\ Filter.filter_input (of_string "a  b") = Return (of_string "a  b").
Proof.
  apply (@X13_filter_input_projection (of_string "  a  b ") (of_string "a  b")).
  reflexivity.
Defined.

(** ** The unit tests of the file, run on the model *)

Example test_filter_removes_extra_spaces :
  Filter.filter_input
    ([0x20; 0x20; 0x20; 0x41F; 0x440; 0x438; 0x43C; 0x435; 0x440; 0x20;
      0x432; 0x432; 0x43E; 0x434; 0x430; 0x20; 0x20; 0x20]%N)
  = Return [0x41F; 0x440; 0x438; 0x43C; 0x435; 0x440; 0x20;
            0x432; 0x432; 0x43E; 0x434; 0x430]%N.
Proof. reflexivity. Qed.

Example test_filter_exceeds_max_length :
  Filter.filter_input (replicate (MAX_INPUT_LENGTH + 1) 0x41%N)
  = Raise (LengthExceeded MAX_INPUT_LENGTH).
Proof. reflexivity. Qed.

Example test_validator_allows_valid_input :
  Validator.validate_input (of_string "Valid_Input 123")
  = Return (of_string "Valid_Input 123").
Proof. reflexivity. Qed.

Example test_validator_rejects_invalid_input :
  Validator.validate_input (of_string "Invalid@Input#!") = Raise InvalidCharacters.
Proof. reflexivity. Qed.
